(** * reqflow: the request facade of [src/script.js]

    A shallow embedding of the module: the shared [api] handle, the
    five verb functions, [formatError] and the envelope they build,
    followed by the properties of the written specification.

    Modelling conventions.
    - JavaScript values of type [any] (payloads, headers, configs) are
      [JsValue]s.  Numbers are the safe integers, of magnitude up to
      2^53, which JavaScript holds exactly and prints in plain decimal
      digits; [NaN], fractions and larger magnitudes are outside the
      model, and a theorem that speaks of every number says so.
    - A string is the UTF-8 text of a well-formed JavaScript string,
      one without lone surrogates (which URLSearchParams would replace
      by U+FFFD before writing them).
    - An object is the list of its own enumerable properties in
      enumeration order.
    - An [async] function is a computation over the [World] (the module
      variable [api], the error stream, the requests handed to axios)
      that either returns a value or throws; the promise it returns is
      fulfilled in the first case and rejected in the second. *)

From Stdlib Require Import ZArith NArith List String Ascii Bool Lia Permutation.
From Stdlib Require Import DecimalString.
Import ListNotations.
Local Open Scope string_scope.
Local Open Scope Z_scope.

(** ** JavaScript values *)

Local Set Warnings "-register-all".

Inductive JsValue : Type :=
| JUndefined
| JNull
| JBool (b : bool)
| JNum (n : Z)
| JStr (s : string)
| JArr (items : list JsValue)
| JObj (props : list (string * JsValue)).

(** ToBoolean. *)
Definition truthy (v : JsValue) : bool :=
  match v with
  | JUndefined | JNull => false
  | JBool b => b
  | JNum n => negb (n =? 0)
  | JStr s => negb (s =? "")%string
  | JArr _ | JObj _ => true
  end.

(** [a || b] *)
Definition js_or (a b : JsValue) : JsValue := if truthy a then a else b.

(** [v == null], true of [null] and [undefined] only. *)
Definition nullish (v : JsValue) : bool :=
  match v with
  | JUndefined | JNull => true
  | _ => false
  end.

Fixpoint lookup (k : string) (props : list (string * JsValue)) : option JsValue :=
  match props with
  | [] => None
  | (k', v) :: rest => if (k =? k')%string then Some v else lookup k rest
  end.

(** [v.k] for a key [k] that no prototype defines: the own property of
    an object, [undefined] on everything else.  (On [null] and
    [undefined] the access throws; every use below is guarded by [?.].) *)
Definition get_prop (v : JsValue) (k : string) : JsValue :=
  match v with
  | JObj props =>
      match lookup k props with
      | Some x => x
      | None => JUndefined
      end
  | _ => JUndefined
  end.

(** [v?.k] *)
Definition opt_chain (v : JsValue) (k : string) : JsValue :=
  if nullish v then JUndefined else get_prop v k.

(** A destructuring default, [{ k = d }]: it applies to [undefined] only. *)
Definition default_to (v d : JsValue) : JsValue :=
  match v with
  | JUndefined => d
  | _ => v
  end.

(** The own keys of an object, in enumeration order. *)
Definition own_keys (v : JsValue) : list string :=
  match v with
  | JObj props => map fst props
  | _ => []
  end.

(** The integers a JavaScript number holds exactly. *)
Definition safe_integer (n : Z) : bool := Z.abs n <=? 2 ^ 53.

(** Number::toString on a safe integer: its decimal digits.  (Past
    2^53 JavaScript prints the shortest digits that read back as the
    same number, and from 10^21 on an exponent; neither is modelled.) *)
Definition number_to_string (n : Z) : string :=
  NilZero.string_of_int (Z.to_int n).

(** ** URLSearchParams

    [new URLSearchParams(data).toString()] for [data] a record of
    strings and numbers, the type the documentation of [get] gives it:
    every value is converted to a string, then names and values are
    written with the application/x-www-form-urlencoded serializer. *)

Inductive QueryValue : Type :=
| QStr (s : string)
| QNum (n : Z).

Definition QueryRecord : Type := list (string * QueryValue).

Definition query_value_to_string (v : QueryValue) : string :=
  match v with
  | QStr s => s
  | QNum n => number_to_string n
  end.

Definition hex_digit (n : N) : ascii :=
  if (n <? 10)%N then ascii_of_N (48 + n) else ascii_of_N (55 + n).

(** Bytes the serializer leaves as they are: ASCII alphanumerics and
    the four characters [*], [-], [.] and [_]. *)
Definition urlencoded_safe (n : N) : bool :=
  ((48 <=? n) && (n <=? 57) || (65 <=? n) && (n <=? 90)
   || (97 <=? n) && (n <=? 122)
   || (n =? 42) || (n =? 45) || (n =? 46) || (n =? 95))%N.

Definition urlencoded_byte (c : ascii) : string :=
  let n := N_of_ascii c in
  if (n =? 32)%N then "+"
  else if urlencoded_safe n then String c ""
  else String "%" (String (hex_digit (n / 16)) (String (hex_digit (n mod 16)) "")).

Fixpoint urlencoded_string (s : string) : string :=
  match s with
  | EmptyString => ""
  | String c rest => urlencoded_byte c ++ urlencoded_string rest
  end.

Definition urlencoded_pair (p : string * QueryValue) : string :=
  urlencoded_string (fst p) ++ "=" ++ urlencoded_string (query_value_to_string (snd p)).

Definition URLSearchParams_toString (data : QueryRecord) : string :=
  String.concat "&" (map urlencoded_pair data).

Example number_to_string_neg : number_to_string (-42) = "-42".
Proof. reflexivity. Qed.

Example urlencoded_space_amp : urlencoded_string "a b&c~" = "a+b%26c%7E".
Proof. reflexivity. Qed.

(** ** What axios hands back

    [response.data], [response.status] and [response.headers] of a
    response; [err.message] and [err.response] of an error object.  An
    error that carries no response ([err.response] undefined) has
    [response = None]. *)

Record AxiosResponse : Type := {
  data : JsValue;
  status : Z;
  headers : JsValue
}.

Record JsError : Type := {
  name : string;
  message : string;
  response : option AxiosResponse
}.

Inductive Primitive : Type :=
| PBool (b : bool)
| PNum (n : Z)
| PStr (s : string).

(** What a [catch] may receive.  axios rejects with an error object;
    an adapter or a transform given in a config may reject with
    anything else, [undefined] and [null] included. *)
Inductive Thrown : Type :=
| ThrownUndefined
| ThrownNull
| ThrownPrimitive (p : Primitive)
| ThrownError (e : JsError).

Coercion ThrownError : JsError >-> Thrown.

Inductive AxiosResult : Type :=
| Resolve (r : AxiosResponse)
| Reject (e : Thrown).

(** A rejection with [undefined] or [null]. *)
Definition nullish_rejection (answer : AxiosResult) : bool :=
  match answer with
  | Reject ThrownUndefined | Reject ThrownNull => true
  | _ => false
  end.

Inductive Method : Type := GET | POST | PUT | DELETE | PATCH.

(** One call [api.get(url, config)], [api.post(url, body, config)], ...;
    [body] is [None] for the two methods that take none. *)
Record Request : Type := {
  method : Method;
  url : string;
  body : option JsValue;
  request_config : JsValue
}.

(** The instance [axios.create(config)] returns, known here by the
    config it was created with.  (axios lays that config over the
    defaults of the library to make [instance.defaults]; that merge is
    the library's and is not modelled.) *)
Record AxiosInstance : Type := {
  created_with : JsValue
}.

(** ** The world of the module

    [api] is the module variable [let api;] ([None] while it is
    undefined); [stderr] collects the lines of [console.error];
    [network] collects every request given to axios with its outcome,
    oldest first. *)

Record World : Type := {
  api : option AxiosInstance;
  stderr : list string;
  network : list (Request * AxiosResult)
}.

Definition initial_world : World :=
  {| api := None; stderr := []; network := [] |}.

(** [w] after one more request and its answer. *)
Definition exchanged (w : World) (req : Request) (answer : AxiosResult) : World :=
  {| api := api w; stderr := stderr w; network := network w ++ [(req, answer)] |}.

(** [w] after one more line on the error stream. *)
Definition warned (w : World) (line : string) : World :=
  {| api := api w; stderr := stderr w ++ [line]; network := network w |}.

Inductive Completion (A : Type) : Type :=
| Return (a : A)
| Throw (e : Thrown).
Arguments Return {A} a.
Arguments Throw {A} e.

Definition Js (A : Type) : Type := World -> Completion A * World.

Definition ret {A} (a : A) : Js A := fun w => (Return a, w).

Definition throw {A} (e : Thrown) : Js A := fun w => (Throw e, w).

(** A step that does not touch the world. *)
Definition pure {A} (c : Completion A) : Js A := fun w => (c, w).

Definition bind {A B} (m : Js A) (k : A -> Js B) : Js B :=
  fun w =>
    match m w with
    | (Return a, w') => k a w'
    | (Throw e, w') => (Throw e, w')
    end.

(** [try { m } catch (err) { handler(err) }] *)
Definition try_catch {A} (m : Js A) (handler : Thrown -> Js A) : Js A :=
  fun w =>
    match m w with
    | (Return a, w') => (Return a, w')
    | (Throw e, w') => handler e w'
    end.

Declare Scope js_scope.
Delimit Scope js_scope with js.
Notation "x <- m ;; k" := (bind m (fun x => k))
  (at level 61, m at next level, right associativity) : js_scope.
Notation "m ;;; k" := (bind m (fun _ => k))
  (at level 61, right associativity) : js_scope.
Local Open Scope js_scope.

Definition read_api : Js (option AxiosInstance) := fun w => (Return (api w), w).

Definition write_api (a : AxiosInstance) : Js unit :=
  fun w => (Return tt, {| api := Some a; stderr := stderr w; network := network w |}).

Definition console_error (line : string) : Js unit :=
  fun w => (Return tt, warned w line).

(** The state of the promise an [async] function returns. *)
Inductive Promise : Type :=
| Fulfilled (v : JsValue)
| Rejected (e : Thrown).

Definition settled (c : Completion JsValue) : Promise :=
  match c with
  | Return v => Fulfilled v
  | Throw e => Rejected e
  end.

Definition async (fn : Js JsValue) : World -> Promise * World :=
  fun w => (settled (fst (fn w)), snd (fn w)).

(** ** [createApiApp] *)

(** Defining property [k] in an object literal: an existing key keeps
    its place and takes the new value, a new key goes last. *)
Fixpoint set_prop (k : string) (v : JsValue) (props : list (string * JsValue))
  : list (string * JsValue) :=
  match props with
  | [] => [(k, v)]
  | (k', v') :: rest =>
      if (k =? k')%string then (k', v) :: rest else (k', v') :: set_prop k v rest
  end.

(** [{ ...target, ...source }] *)
Definition spread (target source : list (string * JsValue)) : list (string * JsValue) :=
  fold_left (fun acc kv => set_prop (fst kv) (snd kv) acc) source target.

Definition axios_create (config : list (string * JsValue)) : AxiosInstance :=
  {| created_with := JObj config |}.

(** [function createApiApp(baseURL, config = { })]; [config = None] is
    the omitted argument. *)
Definition createApiApp (baseURL : string) (config : option (list (string * JsValue)))
  : Js unit :=
  let config := match config with Some c => c | None => [] end in
  write_api (axios_create (spread [("baseURL", JStr baseURL)] config)).

(** ** [formatError] *)

(** [x || d] on a number that may be undefined. *)
Definition num_or (x : option Z) (d : Z) : Z :=
  match x with
  | Some n => if n =? 0 then d else n
  | None => d
  end.

(** What the engine throws when a property of [undefined] or [null]
    is read; the wording is V8's. *)
Definition read_error (base property : string) : JsError :=
  {| name := "TypeError";
     message := "Cannot read properties of " ++ base ++ " (reading '" ++ property ++ "')";
     response := None |}.

(** [err.response] and [err.message] of a thrown value that has
    properties: those of an error object, [undefined] on a primitive. *)
Definition thrown_response (err : Thrown) : option AxiosResponse :=
  match err with
  | ThrownError e => response e
  | _ => None
  end.

Definition thrown_message (err : Thrown) : JsValue :=
  match err with
  | ThrownError e => JStr (message e)
  | _ => JUndefined
  end.

(** [err.response?.data] *)
Definition response_data (err : Thrown) : JsValue :=
  match thrown_response err with
  | Some r => data r
  | None => JUndefined
  end.

(** [function formatError(err)].  Its first line reads [err.response]
    with no guard on [err], which throws when [err] is [undefined] or
    [null]. *)
Definition formatError (err : Thrown) : Completion JsValue :=
  match err with
  | ThrownUndefined => Throw (read_error "undefined" "response")
  | ThrownNull => Throw (read_error "null" "response")
  | _ =>
      let status := num_or (option_map status (thrown_response err)) 0 in
      if status >=? 500 then
        Return
          (JObj [("headers", JObj []);
                 ("main", JObj [("status", JNum status);
                                ("message", JStr "Something went wrong. Please try again later.");
                                ("body", JNull)])])
      else
        Return
          (JObj [("headers", JObj []);
                 ("main", JObj [("status", JNum status);
                                ("message", js_or (js_or (opt_chain (response_data err) "message")
                                                         (thrown_message err))
                                                  (JStr "Unknown error"));
                                ("body", js_or (response_data err) (JObj []))])])
  end.

(** ** The options object of a verb function *)

Module Options.
(** [{ route, data, config }]; a property the caller left out is
    [undefined].  [D] is the type of [data]. *)
Record t (D : Type) : Type := make {
  route : string;
  data : D;
  config : JsValue
}.
Arguments make {D} route data config.
Arguments route {D} _.
Arguments data {D} _.
Arguments config {D} _.
End Options.

(** [data] of [get]: left out, [null], or a record of query parameters. *)
Inductive QueryData : Type :=
| DataUndefined
| DataNull
| DataRecord (r : QueryRecord).

(** What the engine throws when a parameter pattern [{ first, ... }],
    whose first property has no default, meets [undefined]; the
    wording is V8's.  With a default on the first property, as in
    [get], V8 words it as a [read_error]. *)
Definition destructure_error (first : string) : JsError :=
  {| name := "TypeError";
     message := "Cannot destructure property '" ++ first
                ++ "' of 'undefined' as it is undefined.";
     response := None |}.

(** Binding the parameter pattern; [None] is the call without an
    argument. *)
Definition destructure {D} (error : JsError) (arg : option (Options.t D))
  : Js (Options.t D) :=
  match arg with
  | Some o => ret o
  | None => throw error
  end.

Definition not_created : string :=
  "No api app created!, try creating one using createApiApp() in the root file".

(** [{ headers: response.headers, main: { status: response.status,
       message: "Success", body: response.data } }] *)
Definition success (response : AxiosResponse) : JsValue :=
  JObj [("headers", headers response);
        ("main", JObj [("status", JNum (status response));
                       ("message", JStr "Success");
                       ("body", data response)])].

Definition credentials : JsValue := JObj [("withCredentials", JBool true)].

(** One call of a verb function, with the argument it is given
    ([None]: no argument).  [module.exports] names [remove] [delete]. *)
Inductive Call : Type :=
| CallGet (arg : option (Options.t QueryData))
| CallPost (arg : option (Options.t JsValue))
| CallPut (arg : option (Options.t JsValue))
| CallDelete (arg : option (Options.t JsValue))
| CallPatch (arg : option (Options.t JsValue)).

Section Verbs.

(** The transport behind an instance: what axios answers to a request. *)
Variable adapter : AxiosInstance -> Request -> AxiosResult.

Definition send (a : AxiosInstance) (req : Request) : Js AxiosResponse :=
  fun w =>
    let answer := adapter a req in
    match answer with
    | Resolve r => (Return r, exchanged w req answer)
    | Reject e => (Throw e, exchanged w req answer)
    end.

Definition api_get a route config :=
  send a {| method := GET; url := route; body := None; request_config := config |}.
Definition api_post a route data config :=
  send a {| method := POST; url := route; body := Some data; request_config := config |}.
Definition api_put a route data config :=
  send a {| method := PUT; url := route; body := Some data; request_config := config |}.
Definition api_delete a route config :=
  send a {| method := DELETE; url := route; body := None; request_config := config |}.
Definition api_patch a route data config :=
  send a {| method := PATCH; url := route; body := Some data; request_config := config |}.

(** [const get = async ({ data = null, route, config = {} }) => ...] *)
Definition get (arg : option (Options.t QueryData)) : Js JsValue :=
  o <- destructure (read_error "undefined" "data") arg ;;
  let data := match Options.data o with DataUndefined => DataNull | d => d end in
  let route := Options.route o in
  let config := default_to (Options.config o) (JObj []) in
  api <- read_api ;;
  match api with
  | Some api =>
      let queryParam :=
        match data with
        | DataRecord r => URLSearchParams_toString r
        | _ => ""
        end in
      let newRoute := route ++ "?" ++ queryParam in
      try_catch
        (response <- api_get api newRoute config ;;
         ret (success response))
        (fun err => pure (formatError err))
  | None =>
      console_error not_created ;;;
      ret JUndefined
  end.

(** [const post = async ({route, data, config = { withCredentials: true } }) => ...] *)
Definition post (arg : option (Options.t JsValue)) : Js JsValue :=
  o <- destructure (destructure_error "route") arg ;;
  let route := Options.route o in
  let data := Options.data o in
  let config := default_to (Options.config o) credentials in
  api <- read_api ;;
  match api with
  | Some api =>
      try_catch
        (response <- api_post api route data config ;;
         ret (success response))
        (fun err => pure (formatError err))
  | None =>
      console_error not_created ;;;
      ret JUndefined
  end.

(** [const put = async ({ route, data, config = {} }) => ...] *)
Definition put (arg : option (Options.t JsValue)) : Js JsValue :=
  o <- destructure (destructure_error "route") arg ;;
  let route := Options.route o in
  let data := Options.data o in
  let config := default_to (Options.config o) (JObj []) in
  api <- read_api ;;
  match api with
  | Some api =>
      try_catch
        (response <- api_put api route data config ;;
         ret (success response))
        (fun err => pure (formatError err))
  | None =>
      console_error not_created ;;;
      ret JUndefined
  end.

(** [const remove = async ({ route, config = { withCredentials: true } }) => ...];
    a [data] property of the argument is not read. *)
Definition remove (arg : option (Options.t JsValue)) : Js JsValue :=
  o <- destructure (destructure_error "route") arg ;;
  let route := Options.route o in
  let config := default_to (Options.config o) credentials in
  api <- read_api ;;
  match api with
  | Some api =>
      try_catch
        (response <- api_delete api route config ;;
         ret (success response))
        (fun err => pure (formatError err))
  | None =>
      console_error not_created ;;;
      ret JUndefined
  end.

(** [const patch = async ({ route, data, config = { withCredentials: true } }) => ...] *)
Definition patch (arg : option (Options.t JsValue)) : Js JsValue :=
  o <- destructure (destructure_error "route") arg ;;
  let route := Options.route o in
  let data := Options.data o in
  let config := default_to (Options.config o) credentials in
  api <- read_api ;;
  match api with
  | Some api =>
      try_catch
        (response <- api_patch api route data config ;;
         ret (success response))
        (fun err => pure (formatError err))
  | None =>
      console_error not_created ;;;
      ret JUndefined
  end.

(** [module.exports]: one call of an exported verb function. *)
Definition invoke (c : Call) : World -> Promise * World :=
  match c with
  | CallGet arg => async (get arg)
  | CallPost arg => async (post arg)
  | CallPut arg => async (put arg)
  | CallDelete arg => async (remove arg)
  | CallPatch arg => async (patch arg)
  end.

End Verbs.

(** ** Reading an envelope

    The typedef [ApiResponse] puts [headers] next to [main], and
    [status], [message] and [body] inside [main]. *)

Definition envelope_headers (v : JsValue) : JsValue := get_prop v "headers".
Definition envelope_status (v : JsValue) : JsValue := get_prop (get_prop v "main") "status".
Definition envelope_message (v : JsValue) : JsValue := get_prop (get_prop v "main") "message".
Definition envelope_body (v : JsValue) : JsValue := get_prop (get_prop v "main") "body".

(** The shape of the typedef: [{ headers, main: { status, message, body } }]. *)
Definition ApiResponse (v : JsValue) : Prop :=
  own_keys v = ["headers"; "main"]
  /\ own_keys (get_prop v "main") = ["status"; "message"; "body"].

(** One flat structure with the four fields [headers], [status],
    [message] and [body], in any order. *)
Definition flat_envelope (v : JsValue) : Prop :=
  Permutation (own_keys v) ["headers"; "status"; "message"; "body"].

(** The call passes an options object. *)
Definition has_options (c : Call) : bool :=
  match c with
  | CallGet (Some _) | CallPost (Some _) | CallPut (Some _)
  | CallDelete (Some _) | CallPatch (Some _) => true
  | _ => false
  end.

(** The requests given to axios so far, oldest first. *)
Definition requests (w : World) : list Request := map fst (network w).

(** What a verb function makes of the answer of axios. *)
Definition settle (answer : AxiosResult) : Completion JsValue :=
  match answer with
  | Resolve r => Return (success r)
  | Reject e => formatError e
  end.

(** A world in which [createApiApp] has run. *)
Definition ready_world : World :=
  snd (createApiApp "https://api.example.com" None initial_world).

(** * Properties *)

(** ** The three ways a call ends *)

Section Outcomes.

Variable adapter : AxiosInstance -> Request -> AxiosResult.

Lemma call_without_options (c : Call) (w : World) :
  has_options c = false ->
  exists e : JsError, invoke adapter c w = (Rejected e, w) /\ name e = "TypeError".
Proof.
  destruct c as [[o|]|[o|]|[o|]|[o|]|[o|]]; cbn; try discriminate; intros _;
    eexists; (split; [reflexivity | reflexivity]).
Qed.

Lemma call_before_init (c : Call) (w : World) :
  has_options c = true -> api w = None ->
  invoke adapter c w = (Fulfilled JUndefined, warned w not_created).
Proof.
  destruct c as [[o|]|[o|]|[o|]|[o|]|[o|]]; cbn; try discriminate; intros _ Hapi;
    unfold async, get, post, put, remove, patch, bind, read_api; cbn;
    rewrite Hapi; reflexivity.
Qed.

Lemma call_after_init (c : Call) (w : World) (a : AxiosInstance) :
  has_options c = true -> api w = Some a ->
  exists req,
    invoke adapter c w
    = (settled (settle (adapter a req)), exchanged w req (adapter a req)).
Proof.
  destruct c as [[o|]|[o|]|[o|]|[o|]|[o|]]; cbn; try discriminate; intros _ Hapi;
    unfold async, get, post, put, remove, patch, bind, read_api; cbn;
    rewrite Hapi; unfold try_catch, bind;
    unfold api_get, api_post, api_put, api_delete, api_patch, send;
    match goal with |- context [adapter a ?r] => exists r end;
    destruct (adapter a _); reflexivity.
Qed.

End Outcomes.

(** ** From the exchange with axios to the value returned *)

Lemma app_one_more {A} (l : list A) (x : A) : l <> (l ++ [x])%list.
Proof.
  intros H. apply (f_equal (@List.length A)) in H.
  rewrite List.length_app in H. cbn in H. lia.
Qed.

(** A call that added the exchange [(req, answer)] to the world
    returned what [settle] makes of [answer]. *)
Lemma answered_call adapter (c : Call) (w : World) (req : Request) (answer : AxiosResult) :
  network (snd (invoke adapter c w)) = (network w ++ [(req, answer)])%list ->
  fst (invoke adapter c w) = settled (settle answer).
Proof.
  intros H. destruct (has_options c) eqn:Hopt.
  - destruct (api w) as [a|] eqn:Hapi.
    + destruct (call_after_init adapter c w a Hopt Hapi) as [req' Hcall].
      rewrite Hcall in *. cbn in *.
      apply app_inv_head in H. injection H as _ Hanswer.
      now rewrite Hanswer.
    + rewrite (call_before_init adapter c w Hopt Hapi) in H. cbn in H.
      now apply app_one_more in H.
  - destruct (call_without_options adapter c w Hopt) as [e [Hcall _]].
    rewrite Hcall in H. cbn in H. now apply app_one_more in H.
Qed.

Lemma opt_chain_get_prop (v : JsValue) (k : string) : opt_chain v k = get_prop v k.
Proof. now destruct v. Qed.

Lemma num_or_nonzero (n d : Z) : n <> 0 -> num_or (Some n) d = n.
Proof.
  intros H. cbn. destruct (Z.eqb_spec n 0); [contradiction | reflexivity].
Qed.

(** Unless axios rejects with [undefined] or [null], its answer is
    made into a value of the typedef's shape. *)
Lemma ApiResponse_settle (answer : AxiosResult) :
  nullish_rejection answer = false ->
  exists v, settle answer = Return v /\ ApiResponse v.
Proof.
  destruct answer as [r | [| | p | e]]; cbn; try discriminate; intros _.
  - eexists. split; [reflexivity | split; reflexivity].
  - eexists. split; [reflexivity | split; reflexivity].
  - destruct (_ >=? 500); eexists; (split; [reflexivity | split; reflexivity]).
Qed.

(** [formatError] on an error object. *)
Lemma formatError_object (e : JsError) :
  formatError e
  = Return
      (if num_or (option_map status (response e)) 0 >=? 500 then
         JObj [("headers", JObj []);
               ("main", JObj [("status", JNum (num_or (option_map status (response e)) 0));
                              ("message", JStr "Something went wrong. Please try again later.");
                              ("body", JNull)])]
       else
         JObj [("headers", JObj []);
               ("main", JObj [("status", JNum (num_or (option_map status (response e)) 0));
                              ("message", js_or (js_or (get_prop (response_data e) "message")
                                                       (JStr (message e)))
                                                (JStr "Unknown error"));
                              ("body", js_or (response_data e) (JObj []))])]).
Proof.
  unfold formatError. cbn [thrown_response thrown_message].
  rewrite opt_chain_get_prop. now destruct (_ >=? 500).
Qed.

(** ** Examples used below *)

Definition example_response : AxiosResponse :=
  {| data := JObj [("id", JNum 7)];
     status := 200;
     headers := JObj [("content-type", JStr "application/json")] |}.

Definition server_error_503 : JsError :=
  {| name := "AxiosError";
     message := "Request failed with status code 503";
     response := Some {| data := JObj [("message", JStr "pool exhausted")];
                         status := 503;
                         headers := JObj [] |} |}.

Definition not_found_404 : JsError :=
  {| name := "AxiosError";
     message := "Request failed with status code 404";
     response := Some {| data := JObj [("message", JStr "no such item")];
                         status := 404;
                         headers := JObj [] |} |}.

(** A 400 whose JSON payload carries an empty [message]. *)
Definition empty_message_400 : JsError :=
  {| name := "AxiosError";
     message := "Request failed with status code 400";
     response := Some {| data := JObj [("message", JStr "")];
                         status := 400;
                         headers := JObj [] |} |}.

Definition network_error : JsError :=
  {| name := "AxiosError"; message := "Network Error"; response := None |}.

Definition answers (answer : AxiosResult) : AxiosInstance -> Request -> AxiosResult :=
  fun _ _ => answer.

Definition items_options : Options.t JsValue :=
  Options.make "/items" (JObj [("name", JStr "pen")]) JUndefined.

Example ready_world_api :
  api ready_world = Some {| created_with := JObj [("baseURL", JStr "https://api.example.com")] |}.
Proof. reflexivity. Qed.

Example createApiApp_overrides :
  api (snd (createApiApp "https://a.example"
              (Some [("timeout", JNum 1000); ("baseURL", JStr "https://b.example")])
              initial_world))
  = Some {| created_with := JObj [("baseURL", JStr "https://b.example"); ("timeout", JNum 1000)] |}.
Proof. reflexivity. Qed.

(** ** The shape of the returned value *)

(** C1 (as amended).  Every verb function called with an options
    object after [createApiApp] hands one request to axios and, unless
    axios rejects it with [undefined] or [null], fulfils its promise
    with a value of the shape [{ headers, main: { status, message,
    body } }], whether the request succeeded or failed. *)
Theorem verbs_return_ApiResponse adapter (c : Call) (w : World) (a : AxiosInstance) :
  has_options c = true ->
  api w = Some a ->
  exists req,
    network (snd (invoke adapter c w)) = (network w ++ [(req, adapter a req)])%list
    /\ (nullish_rejection (adapter a req) = false ->
        exists v, fst (invoke adapter c w) = Fulfilled v /\ ApiResponse v).
Proof.
  intros Hopt Hapi.
  destruct (call_after_init adapter c w a Hopt Hapi) as [req Hcall].
  exists req. rewrite Hcall. cbn [fst snd exchanged network]. split; [reflexivity |].
  intros Hanswer. destruct (ApiResponse_settle _ Hanswer) as [v [Hv Hshape]].
  exists v. rewrite Hv. split; [reflexivity | exact Hshape].
Qed.

Lemma verbs_return_ApiResponse_witness :
  has_options (CallPost (Some items_options)) = true
  /\ api ready_world
     = Some {| created_with := JObj [("baseURL", JStr "https://api.example.com")] |}
  /\ exists req,
       network (snd (invoke (answers (Reject not_found_404))
                       (CallPost (Some items_options)) ready_world))
       = (network ready_world ++ [(req, Reject not_found_404)])%list
       /\ (nullish_rejection (Reject not_found_404) = false ->
           exists v,
             fst (invoke (answers (Reject not_found_404))
                    (CallPost (Some items_options)) ready_world)
             = Fulfilled v
             /\ ApiResponse v).
Proof.
  split; [reflexivity | split; [reflexivity |]].
  apply (verbs_return_ApiResponse (answers (Reject not_found_404))
           (CallPost (Some items_options)) ready_world
           {| created_with := JObj [("baseURL", JStr "https://api.example.com")] |});
    reflexivity.
Defined.

(** C1 as the specification words it fails: after [createApiApp], a
    successful [get] of ["/items"] returns an object whose own keys are
    [headers] and [main], which is not the flat four-field structure. *)
Lemma envelope_is_not_flat :
  exists v,
    fst (invoke (answers (Resolve example_response))
           (CallGet (Some (Options.make "/items" DataNull JUndefined))) ready_world)
    = Fulfilled v
    /\ own_keys v = ["headers"; "main"]
    /\ ~ flat_envelope v.
Proof.
  eexists. split; [reflexivity | split; [reflexivity |]].
  intros H. apply Permutation_length in H. discriminate H.
Qed.

(** ** Settling *)

(** C2 (as amended).  A verb function called with an options object
    does not reject as long as axios does not reject with [undefined]
    or [null]: its promise is fulfilled, and when the request it
    issued failed with [e] the fulfilment value is the one
    [formatError e] returns. *)
Theorem verbs_settle adapter (c : Call) (w : World) :
  has_options c = true ->
  (forall a req, api w = Some a -> nullish_rejection (adapter a req) = false) ->
  exists v,
    fst (invoke adapter c w) = Fulfilled v
    /\ forall req e,
         network (snd (invoke adapter c w)) = (network w ++ [(req, Reject e)])%list ->
         formatError e = Return v.
Proof.
  intros Hopt Hadapter. destruct (api w) as [a|] eqn:Hapi.
  - destruct (call_after_init adapter c w a Hopt Hapi) as [req Hcall].
    destruct (ApiResponse_settle _ (Hadapter a req eq_refl)) as [v [Hv _]].
    exists v. split; [now rewrite Hcall, Hv |].
    intros req' e H. apply answered_call in H. rewrite Hcall in H. cbn [fst] in H.
    rewrite Hv in H. cbn [settle] in H.
    destruct (formatError e) as [v' | e']; cbn in H; [now injection H as -> | discriminate H].
  - exists JUndefined. rewrite (call_before_init adapter c w Hopt Hapi).
    split; [reflexivity |]. cbn. intros req e H. now apply app_one_more in H.
Qed.

Lemma verbs_settle_witness :
  has_options (CallDelete (Some items_options)) = true
  /\ exists v,
       fst (invoke (answers (Reject network_error)) (CallDelete (Some items_options)) ready_world)
       = Fulfilled v
       /\ forall req e,
            network (snd (invoke (answers (Reject network_error))
                            (CallDelete (Some items_options)) ready_world))
            = (network ready_world ++ [(req, Reject e)])%list ->
            formatError e = Return v.
Proof.
  split; [reflexivity |].
  apply (verbs_settle (answers (Reject network_error))
           (CallDelete (Some items_options)) ready_world).
  - reflexivity.
  - reflexivity.
Defined.

(** C2 as the specification words it fails: [post] called with no
    argument, after [createApiApp], returns a promise that is rejected
    with the TypeError of the parameter pattern. *)
Lemma post_without_argument_rejects :
  fst (invoke (answers (Resolve example_response)) (CallPost None) ready_world)
  = Rejected (destructure_error "route")
  /\ forall v,
       fst (invoke (answers (Resolve example_response)) (CallPost None) ready_world)
       <> Fulfilled v.
Proof.
  split; [reflexivity | intros v H; discriminate H].
Qed.

(** ** The error mapping *)

(** C3.  When the request a verb function issued fails with a response
    of status at least 500, the function returns the envelope with
    empty headers, that status, the fixed message and a [null] body,
    whatever payload the response carries. *)
Theorem server_error_envelope adapter (c : Call) (w : World)
        (req : Request) (e : JsError) (r : AxiosResponse) :
  network (snd (invoke adapter c w)) = (network w ++ [(req, Reject e)])%list ->
  response e = Some r ->
  500 <= status r ->
  exists v,
    fst (invoke adapter c w) = Fulfilled v
    /\ envelope_headers v = JObj []
    /\ envelope_status v = JNum (status r)
    /\ envelope_message v = JStr "Something went wrong. Please try again later."
    /\ envelope_body v = JNull.
Proof.
  intros Hnet Hresp Hstatus. apply answered_call in Hnet.
  cbn [settle] in Hnet. rewrite formatError_object in Hnet.
  eexists. split; [exact Hnet |].
  rewrite Hresp. cbn [option_map].
  rewrite num_or_nonzero by lia.
  destruct (Z.geb_spec (status r) 500) as [_ | Hlt]; [| lia].
  repeat split.
Qed.

Lemma server_error_envelope_witness :
  network (snd (invoke (answers (Reject server_error_503))
                  (CallPut (Some items_options)) ready_world))
  = (network ready_world
     ++ [({| method := PUT; url := "/items"; body := Some (JObj [("name", JStr "pen")]);
             request_config := JObj [] |},
          Reject server_error_503)])%list
  /\ exists v,
       fst (invoke (answers (Reject server_error_503))
              (CallPut (Some items_options)) ready_world)
       = Fulfilled v
       /\ envelope_headers v = JObj []
       /\ envelope_status v = JNum 503
       /\ envelope_message v = JStr "Something went wrong. Please try again later."
       /\ envelope_body v = JNull.
Proof.
  split; [reflexivity |].
  apply (server_error_envelope (answers (Reject server_error_503))
           (CallPut (Some items_options)) ready_world
           {| method := PUT; url := "/items"; body := Some (JObj [("name", JStr "pen")]);
              request_config := JObj [] |}
           server_error_503
           {| data := JObj [("message", JStr "pool exhausted")];
              status := 503; headers := JObj [] |}).
  - reflexivity.
  - reflexivity.
  - discriminate.
Defined.

(** [err.message || "Unknown error"] *)
Lemma js_or_message (m : string) :
  js_or (JStr m) (JStr "Unknown error")
  = if (m =? "")%string then JStr "Unknown error" else JStr m.
Proof.
  unfold js_or. cbn. now destruct (m =? "")%string.
Qed.

(** C4 (as amended).  When the request a verb function issued fails
    with a response of status 400 to 499, the function returns the
    envelope with empty headers and that status; its body is the
    payload of the response when that is truthy and the empty mapping
    otherwise; its message is the [message] field of the payload when
    that is truthy, else the message of the error when that is not
    empty, else ["Unknown error"]. *)
Theorem client_error_envelope adapter (c : Call) (w : World)
        (req : Request) (e : JsError) (r : AxiosResponse) :
  network (snd (invoke adapter c w)) = (network w ++ [(req, Reject e)])%list ->
  response e = Some r ->
  400 <= status r <= 499 ->
  exists v,
    fst (invoke adapter c w) = Fulfilled v
    /\ envelope_headers v = JObj []
    /\ envelope_status v = JNum (status r)
    /\ envelope_body v = (if truthy (data r) then data r else JObj [])
    /\ envelope_message v
       = (if truthy (get_prop (data r) "message") then get_prop (data r) "message"
          else if (message e =? "")%string then JStr "Unknown error"
          else JStr (message e)).
Proof.
  intros Hnet Hresp Hstatus. apply answered_call in Hnet.
  cbn [settle] in Hnet. rewrite formatError_object in Hnet.
  eexists. split; [exact Hnet |].
  unfold response_data, thrown_response. rewrite Hresp. cbn [option_map].
  rewrite num_or_nonzero by lia.
  destruct (Z.geb_spec (status r) 500) as [Hge | _]; [lia |].
  unfold envelope_headers, envelope_status, envelope_body, envelope_message.
  cbn [get_prop lookup String.eqb Ascii.eqb Bool.eqb].
  repeat split.
  unfold js_or at 2.
  destruct (truthy (get_prop (data r) "message")) eqn:Hm.
  - unfold js_or. now rewrite Hm.
  - apply js_or_message.
Qed.

Lemma client_error_envelope_witness :
  network (snd (invoke (answers (Reject not_found_404))
                  (CallPatch (Some items_options)) ready_world))
  = (network ready_world
     ++ [({| method := PATCH; url := "/items"; body := Some (JObj [("name", JStr "pen")]);
             request_config := JObj [("withCredentials", JBool true)] |},
          Reject not_found_404)])%list
  /\ 400 <= 404 <= 499
  /\ exists v,
       fst (invoke (answers (Reject not_found_404))
              (CallPatch (Some items_options)) ready_world)
       = Fulfilled v
       /\ envelope_headers v = JObj []
       /\ envelope_status v = JNum 404
       /\ envelope_body v = JObj [("message", JStr "no such item")]
       /\ envelope_message v = JStr "no such item".
Proof.
  split; [reflexivity | split; [split; discriminate |]].
  apply (client_error_envelope (answers (Reject not_found_404))
           (CallPatch (Some items_options)) ready_world
           {| method := PATCH; url := "/items"; body := Some (JObj [("name", JStr "pen")]);
              request_config := JObj [("withCredentials", JBool true)] |}
           not_found_404
           {| data := JObj [("message", JStr "no such item")];
              status := 404; headers := JObj [] |}).
  - reflexivity.
  - reflexivity.
  - split; discriminate.
Defined.

(** C4 as the specification words it fails: the server answers 400
    with the payload [{ "message": "" }]; the [message] field is
    present, yet the envelope carries the message of the transport
    error instead of it. *)
Lemma client_error_empty_message :
  exists v,
    fst (invoke (answers (Reject empty_message_400))
           (CallPost (Some items_options)) ready_world)
    = Fulfilled v
    /\ lookup "message" [("message", JStr "")] = Some (JStr "")
    /\ response_data empty_message_400 = JObj [("message", JStr "")]
    /\ envelope_message v = JStr "Request failed with status code 400"
    /\ envelope_message v <> JStr "".
Proof.
  eexists. repeat split; try reflexivity. discriminate.
Qed.

(** C5 (as amended).  When the request a verb function issued fails
    with an error object that carries no response, the function
    returns the envelope with status 0, empty headers, an empty mapping
    as body and, as message, the message of the error when that is not
    empty and ["Unknown error"] when it is. *)
Theorem no_response_envelope adapter (c : Call) (w : World)
        (req : Request) (e : JsError) :
  network (snd (invoke adapter c w)) = (network w ++ [(req, Reject e)])%list ->
  response e = None ->
  exists v,
    fst (invoke adapter c w) = Fulfilled v
    /\ envelope_status v = JNum 0
    /\ envelope_headers v = JObj []
    /\ envelope_message v
       = (if (message e =? "")%string then JStr "Unknown error" else JStr (message e))
    /\ envelope_body v = JObj [].
Proof.
  intros Hnet Hresp. apply answered_call in Hnet.
  cbn [settle] in Hnet. rewrite formatError_object in Hnet.
  eexists. split; [exact Hnet |].
  unfold response_data, thrown_response. rewrite Hresp. cbn.
  repeat split. apply js_or_message.
Qed.

Lemma no_response_envelope_witness :
  network (snd (invoke (answers (Reject network_error))
                  (CallGet (Some (Options.make "/items" DataUndefined JUndefined)))
                  ready_world))
  = (network ready_world
     ++ [({| method := GET; url := "/items?"; body := None; request_config := JObj [] |},
          Reject network_error)])%list
  /\ exists v,
       fst (invoke (answers (Reject network_error))
              (CallGet (Some (Options.make "/items" DataUndefined JUndefined)))
              ready_world)
       = Fulfilled v
       /\ envelope_status v = JNum 0
       /\ envelope_headers v = JObj []
       /\ envelope_message v = JStr "Network Error"
       /\ envelope_body v = JObj [].
Proof.
  split; [reflexivity |].
  apply (no_response_envelope (answers (Reject network_error))
           (CallGet (Some (Options.make "/items" DataUndefined JUndefined)))
           ready_world
           {| method := GET; url := "/items?"; body := None; request_config := JObj [] |}
           network_error).
  - reflexivity.
  - reflexivity.
Defined.

(** A request cancelled with an empty reason: an error object without
    a response whose message is the empty string. *)
Definition cancelled_without_reason : JsError :=
  {| name := "CanceledError"; message := ""; response := None |}.

(** C5 as the specification words it fails: the error of a failure
    without response has a message, the empty string, yet the envelope
    carries ["Unknown error"] instead of it. *)
Lemma no_response_empty_message :
  exists v,
    fst (invoke (answers (Reject cancelled_without_reason))
           (CallGet (Some (Options.make "/items" DataNull JUndefined))) ready_world)
    = Fulfilled v
    /\ response cancelled_without_reason = None
    /\ message cancelled_without_reason = ""
    /\ envelope_message v = JStr "Unknown error"
    /\ envelope_message v <> JStr (message cancelled_without_reason).
Proof.
  eexists. repeat split; try reflexivity. discriminate.
Qed.

(** ** Success *)

(** C6.  When the request a verb function issued succeeds, the
    envelope returned has the message ["Success"], the decoded payload
    of the response as body, its status as status and its headers as
    headers. *)
Theorem success_envelope adapter (c : Call) (w : World)
        (req : Request) (r : AxiosResponse) :
  network (snd (invoke adapter c w)) = (network w ++ [(req, Resolve r)])%list ->
  exists v,
    fst (invoke adapter c w) = Fulfilled v
    /\ envelope_message v = JStr "Success"
    /\ envelope_body v = data r
    /\ envelope_status v = JNum (status r)
    /\ envelope_headers v = headers r.
Proof.
  intros Hnet. apply answered_call in Hnet.
  exists (success r). split; [exact Hnet |]. repeat split.
Qed.

Lemma success_envelope_witness :
  network (snd (invoke (answers (Resolve example_response))
                  (CallDelete (Some items_options)) ready_world))
  = (network ready_world
     ++ [({| method := DELETE; url := "/items"; body := None;
             request_config := JObj [("withCredentials", JBool true)] |},
          Resolve example_response)])%list
  /\ exists v,
       fst (invoke (answers (Resolve example_response))
              (CallDelete (Some items_options)) ready_world)
       = Fulfilled v
       /\ envelope_message v = JStr "Success"
       /\ envelope_body v = JObj [("id", JNum 7)]
       /\ envelope_status v = JNum 200
       /\ envelope_headers v = JObj [("content-type", JStr "application/json")].
Proof.
  split; [reflexivity |].
  apply (success_envelope (answers (Resolve example_response))
           (CallDelete (Some items_options)) ready_world
           {| method := DELETE; url := "/items"; body := None;
              request_config := JObj [("withCredentials", JBool true)] |}
           example_response).
  reflexivity.
Defined.

(** ** The query string of [get] *)

Lemma requests_exchanged (w : World) (req : Request) (answer : AxiosResult) :
  requests (exchanged w req answer) = (requests w ++ [req])%list.
Proof.
  unfold requests, exchanged. cbn. now rewrite map_app.
Qed.

(** The one request [get] gives axios once [api] is set. *)
Lemma get_request adapter (w : World) (a : AxiosInstance) (o : Options.t QueryData) :
  api w = Some a ->
  requests (snd (invoke adapter (CallGet (Some o)) w))
  = (requests w
     ++ [{| method := GET;
            url := Options.route o ++ "?"
                   ++ match Options.data o with
                      | DataRecord r => URLSearchParams_toString r
                      | _ => ""
                      end;
            body := None;
            request_config := default_to (Options.config o) (JObj []) |}])%list.
Proof.
  intros Hapi. cbn. unfold async, get, bind, read_api. cbn. rewrite Hapi.
  unfold try_catch, bind, api_get, send.
  destruct (Options.data o); destruct (adapter a _); cbn; apply requests_exchanged.
Qed.



(** ** Before [createApiApp] *)

(** C8 (as amended).  A verb function called with an options object
    before [createApiApp] does not throw and returns no envelope: its
    promise is fulfilled with [undefined], one diagnostic line goes to
    the error stream, and no request is given to axios. *)
Theorem verb_before_init adapter (c : Call) (w : World) :
  has_options c = true ->
  api w = None ->
  fst (invoke adapter c w) = Fulfilled JUndefined
  /\ stderr (snd (invoke adapter c w)) = (stderr w ++ [not_created])%list
  /\ network (snd (invoke adapter c w)) = network w
  /\ api (snd (invoke adapter c w)) = None.
Proof.
  intros Hopt Hapi. rewrite (call_before_init adapter c w Hopt Hapi). cbn.
  repeat split. exact Hapi.
Qed.

Lemma verb_before_init_witness :
  has_options (CallPut (Some items_options)) = true
  /\ api initial_world = None
  /\ fst (invoke (answers (Resolve example_response))
            (CallPut (Some items_options)) initial_world)
     = Fulfilled JUndefined
  /\ stderr (snd (invoke (answers (Resolve example_response))
                    (CallPut (Some items_options)) initial_world))
     = ["No api app created!, try creating one using createApiApp() in the root file"]
  /\ network (snd (invoke (answers (Resolve example_response))
                     (CallPut (Some items_options)) initial_world))
     = []
  /\ api (snd (invoke (answers (Resolve example_response))
                 (CallPut (Some items_options)) initial_world))
     = None.
Proof.
  split; [reflexivity | split; [reflexivity |]].
  apply (verb_before_init (answers (Resolve example_response))
           (CallPut (Some items_options)) initial_world);
    reflexivity.
Defined.

(** C8 as the specification words it fails: [delete] called before
    [createApiApp] with no argument does throw, its promise is
    rejected with the TypeError of the parameter pattern, and no
    diagnostic is written. *)
Lemma delete_before_init_without_argument :
  api initial_world = None
  /\ fst (invoke (answers (Resolve example_response)) (CallDelete None) initial_world)
     = Rejected (destructure_error "route")
  /\ stderr (snd (invoke (answers (Resolve example_response)) (CallDelete None)
                   initial_world))
     = [].
Proof.
  repeat split.
Qed.

(** ** Default configs *)

(** C9.  When the options carry no [config], [post], [patch] and
    [delete] give axios the config [{ withCredentials: true }] and
    [put] gives it [{}]. *)
Theorem default_configs adapter (w : World) (a : AxiosInstance)
        (route : string) (data : JsValue) :
  api w = Some a ->
  let o := Options.make route data JUndefined in
  map request_config (requests (snd (invoke adapter (CallPost (Some o)) w)))
  = (map request_config (requests w) ++ [JObj [("withCredentials", JBool true)]])%list
  /\ map request_config (requests (snd (invoke adapter (CallPatch (Some o)) w)))
     = (map request_config (requests w) ++ [JObj [("withCredentials", JBool true)]])%list
  /\ map request_config (requests (snd (invoke adapter (CallPut (Some o)) w)))
     = (map request_config (requests w) ++ [JObj []])%list
  /\ map request_config (requests (snd (invoke adapter (CallDelete (Some o)) w)))
     = (map request_config (requests w) ++ [JObj [("withCredentials", JBool true)]])%list.
Proof.
  intros Hapi o.
  repeat split;
    unfold invoke, async, post, patch, put, remove, bind, read_api, destructure, ret;
    rewrite Hapi;
    unfold try_catch, bind, api_post, api_patch, api_put, api_delete, send, ret, pure;
    destruct (adapter a _); cbn [fst snd];
    rewrite requests_exchanged, map_app; reflexivity.
Qed.

Lemma default_configs_witness :
  api ready_world
  = Some {| created_with := JObj [("baseURL", JStr "https://api.example.com")] |}
  /\ map request_config
       (requests (snd (invoke (answers (Resolve example_response))
                         (CallPut (Some (Options.make "/items" JNull JUndefined)))
                         ready_world)))
     = [JObj []].
Proof.
  split; [reflexivity |].
  apply (default_configs (answers (Resolve example_response)) ready_world
           {| created_with := JObj [("baseURL", JStr "https://api.example.com")] |}
           "/items" JNull).
  reflexivity.
Defined.

(** ** A call without an argument *)

(** C10.  Any verb function invoked with no argument returns a
    rejected promise, the TypeError raised while destructuring the
    missing options object, also after [createApiApp]; nothing is
    written to the error stream and no request is issued. *)
Theorem verb_without_argument_rejects adapter (c : Call) (w : World) :
  has_options c = false ->
  exists e : JsError,
    fst (invoke adapter c w) = Rejected e
    /\ name e = "TypeError"
    /\ snd (invoke adapter c w) = w.
Proof.
  intros Hopt. destruct (call_without_options adapter c w Hopt) as [e [Hcall Hname]].
  exists e. rewrite Hcall. repeat split. exact Hname.
Qed.

Lemma verb_without_argument_rejects_witness :
  has_options (CallGet None) = false
  /\ exists e : JsError,
       fst (invoke (answers (Resolve example_response)) (CallGet None) ready_world)
       = Rejected e
       /\ name e = "TypeError"
       /\ snd (invoke (answers (Resolve example_response)) (CallGet None) ready_world)
          = ready_world.
Proof.
  split; [reflexivity |].
  apply (verb_without_argument_rejects (answers (Resolve example_response))
           (CallGet None) ready_world).
  reflexivity.
Defined.

(** * Further properties of the module *)

(** ** [formatError] on every error *)

(** The status [formatError] reports for [err]: that of the response,
    0 without one. *)
Definition received_status (err : JsError) : Z :=
  match response err with
  | Some r => status r
  | None => 0
  end.

Lemma num_or_zero (x : option Z) :
  num_or x 0 = match x with Some n => n | None => 0 end.
Proof.
  destruct x as [n|]; cbn; [| reflexivity].
  destruct (Z.eqb_spec n 0) as [-> | _]; reflexivity.
Qed.

Lemma formatError_cases (err : JsError) :
  formatError err
  = Return
      (if received_status err >=? 500 then
         JObj [("headers", JObj []);
               ("main", JObj [("status", JNum (received_status err));
                              ("message", JStr "Something went wrong. Please try again later.");
                              ("body", JNull)])]
       else
         JObj [("headers", JObj []);
               ("main", JObj [("status", JNum (received_status err));
                              ("message", js_or (js_or (get_prop (response_data err) "message")
                                                       (JStr (message err)))
                                                (JStr "Unknown error"));
                              ("body", js_or (response_data err) (JObj []))])]).
Proof.
  rewrite formatError_object. unfold received_status. rewrite num_or_zero.
  now destruct (response err).
Qed.

Lemma js_or_truthy (a b : JsValue) : truthy b = true -> truthy (js_or a b) = true.
Proof.
  intros Hb. unfold js_or. now destruct (truthy a) eqn:Ha.
Qed.

(** On an error object [formatError] returns an envelope that reports
    the status of the response as it is and never hands the headers of
    a failed response on: [|| 0] only stands in for the missing
    response. *)
Theorem formatError_status_and_headers (err : JsError) :
  exists v,
    formatError err = Return v
    /\ envelope_status v = JNum (received_status err)
    /\ envelope_headers v = JObj [].
Proof.
  rewrite formatError_cases. eexists. split; [reflexivity |].
  destruct (received_status err >=? 500); split; reflexivity.
Qed.

(** The body of the envelope made from an error object is [null]
    exactly when the response had a status of 500 or more: below that
    a falsy payload, [null] included, is replaced by the empty
    mapping. *)
Theorem formatError_body_null_iff (err : JsError) :
  exists v,
    formatError err = Return v
    /\ (envelope_body v = JNull <-> 500 <= received_status err).
Proof.
  rewrite formatError_cases. eexists. split; [reflexivity |].
  destruct (Z.geb_spec (received_status err) 500) as [Hge | Hlt].
  - split; [intros _; exact Hge | reflexivity].
  - split; [| lia].
    unfold envelope_body. cbn. intros H.
    assert (Ht : truthy (js_or (response_data err) (JObj [])) = true)
      by (apply js_or_truthy; reflexivity).
    rewrite H in Ht. discriminate Ht.
Qed.

(** The message of the envelope made from an error object is never
    empty, [undefined] or otherwise falsy, and below 500 neither is its
    body. *)
Theorem formatError_message_truthy (err : JsError) :
  exists v,
    formatError err = Return v
    /\ truthy (envelope_message v) = true
    /\ (received_status err < 500 -> truthy (envelope_body v) = true).
Proof.
  rewrite formatError_cases. eexists. split; [reflexivity |].
  destruct (Z.geb_spec (received_status err) 500) as [Hge | Hlt].
  - split; [reflexivity | lia].
  - split; intros; unfold envelope_message, envelope_body; cbn;
      apply js_or_truthy; reflexivity.
Qed.

Lemma formatError_message_truthy_witness :
  received_status not_found_404 < 500
  /\ exists v,
       formatError not_found_404 = Return v
       /\ truthy (envelope_message v) = true
       /\ truthy (envelope_body v) = true.
Proof.
  split; [reflexivity |].
  destruct (formatError_message_truthy not_found_404) as (v & Hv & Hm & Hb).
  exists v. split; [exact Hv | split; [exact Hm | apply Hb; reflexivity]].
Defined.

(** A payload that is a string (a text or HTML error page) has no
    [message] of its own: the envelope takes the message of the error
    and keeps the page as body. *)
Theorem formatError_text_payload (err : JsError) (r : AxiosResponse) (page : string) :
  response err = Some r ->
  data r = JStr page ->
  status r < 500 ->
  page <> "" ->
  message err <> "" ->
  exists v,
    formatError err = Return v
    /\ envelope_message v = JStr (message err)
    /\ envelope_body v = JStr page.
Proof.
  intros Hresp Hdata Hstatus Hpage Hmsg.
  rewrite formatError_cases. eexists. split; [reflexivity |].
  unfold received_status, response_data, thrown_response. rewrite Hresp, Hdata.
  destruct (Z.geb_spec (status r) 500) as [Hge | _]; [lia |].
  unfold envelope_message, envelope_body. cbn [get_prop lookup String.eqb Ascii.eqb Bool.eqb].
  unfold js_or. cbn [truthy].
  destruct (String.eqb_spec (message err) "") as [E | _]; [contradiction |].
  destruct (String.eqb_spec page "") as [E | _]; [contradiction |].
  split; reflexivity.
Qed.

Definition not_found_page : JsError :=
  {| name := "AxiosError"; message := "Request failed with status code 404";
     response := Some {| data := JStr "<h1>Not Found</h1>"; status := 404;
                         headers := JObj [] |} |}.

Lemma formatError_text_payload_witness :
  exists v,
    formatError not_found_page = Return v
    /\ envelope_message v = JStr "Request failed with status code 404"
    /\ envelope_body v = JStr "<h1>Not Found</h1>".
Proof.
  apply (formatError_text_payload not_found_page
           {| data := JStr "<h1>Not Found</h1>"; status := 404; headers := JObj [] |}
           "<h1>Not Found</h1>").
  - reflexivity.
  - reflexivity.
  - reflexivity.
  - discriminate.
  - discriminate.
Defined.

(** ** Rejections that are not error objects *)



(** The one failure the [catch] lets through: when axios rejects with
    [undefined] or [null], a call with options made after
    [createApiApp] still hands its request to axios and writes no
    diagnostic, but its promise is rejected, with the TypeError
    [formatError] raises, instead of being fulfilled with an envelope. *)
Theorem nullish_rejection_escapes adapter (c : Call) (w : World)
        (req : Request) (answer : AxiosResult) :
  network (snd (invoke adapter c w)) = (network w ++ [(req, answer)])%list ->
  nullish_rejection answer = true ->
  (exists e : JsError,
     fst (invoke adapter c w) = Rejected e /\ name e = "TypeError")
  /\ stderr (snd (invoke adapter c w)) = stderr w.
Proof.
  intros Hnet Hnullish. split.
  - apply answered_call in Hnet. rewrite Hnet.
    destruct answer as [r | [| | p | e]]; try discriminate Hnullish;
      eexists; split; reflexivity.
  - destruct (has_options c) eqn:Hopt.
    + destruct (api w) as [a|] eqn:Hapi.
      * destruct (call_after_init adapter c w a Hopt Hapi) as [req' ->]. reflexivity.
      * rewrite (call_before_init adapter c w Hopt Hapi) in Hnet. cbn in Hnet.
        now apply app_one_more in Hnet.
    + destruct (call_without_options adapter c w Hopt) as [e [-> _]]. reflexivity.
Qed.

Lemma nullish_rejection_escapes_witness :
  network (snd (invoke (answers (Reject ThrownNull)) (CallPut (Some items_options))
                  ready_world))
  = (network ready_world
     ++ [({| method := PUT; url := "/items"; body := Some (JObj [("name", JStr "pen")]);
             request_config := JObj [] |},
          Reject ThrownNull)])%list
  /\ (exists e : JsError,
        fst (invoke (answers (Reject ThrownNull)) (CallPut (Some items_options)) ready_world)
        = Rejected e
        /\ name e = "TypeError")
  /\ stderr (snd (invoke (answers (Reject ThrownNull)) (CallPut (Some items_options))
                   ready_world))
     = stderr ready_world.
Proof.
  split; [reflexivity |].
  apply (nullish_rejection_escapes (answers (Reject ThrownNull))
           (CallPut (Some items_options)) ready_world
           {| method := PUT; url := "/items"; body := Some (JObj [("name", JStr "pen")]);
              request_config := JObj [] |}
           (Reject ThrownNull)).
  - reflexivity.
  - reflexivity.
Defined.

(** When axios rejects with a primitive value (a string, a number, a
    boolean), which has neither [response] nor [message], the call is
    fulfilled with the envelope of status 0, message ["Unknown error"]
    and an empty mapping as body. *)
Theorem primitive_rejection_envelope adapter (c : Call) (w : World)
        (req : Request) (p : Primitive) :
  network (snd (invoke adapter c w)) = (network w ++ [(req, Reject (ThrownPrimitive p))])%list ->
  fst (invoke adapter c w)
  = Fulfilled (JObj [("headers", JObj []);
                     ("main", JObj [("status", JNum 0);
                                    ("message", JStr "Unknown error");
                                    ("body", JObj [])])]).
Proof.
  intros Hnet. apply answered_call in Hnet. exact Hnet.
Qed.

Lemma primitive_rejection_envelope_witness :
  fst (invoke (answers (Reject (ThrownPrimitive (PStr "boom"))))
         (CallPatch (Some items_options)) ready_world)
  = Fulfilled (JObj [("headers", JObj []);
                     ("main", JObj [("status", JNum 0);
                                    ("message", JStr "Unknown error");
                                    ("body", JObj [])])]).
Proof.
  apply (primitive_rejection_envelope (answers (Reject (ThrownPrimitive (PStr "boom"))))
           (CallPatch (Some items_options)) ready_world
           {| method := PATCH; url := "/items"; body := Some (JObj [("name", JStr "pen")]);
              request_config := JObj [("withCredentials", JBool true)] |}
           (PStr "boom")).
  reflexivity.
Defined.

(** ** What one call does to the world *)

Definition initialized (w : World) : bool :=
  match api w with
  | Some _ => true
  | None => false
  end.

(** A call never assigns [api]; it gives axios one request when it has
    its options and [api] is set and none otherwise (no retry, no
    second attempt), keeps the earlier exchanges, and writes its one
    diagnostic line only when it has its options and [api] is not set. *)
Theorem call_effects adapter (c : Call) (w : World) :
  api (snd (invoke adapter c w)) = api w
  /\ (exists sent,
        network (snd (invoke adapter c w)) = (network w ++ sent)%list
        /\ List.length sent = if has_options c && initialized w then 1%nat else 0%nat)
  /\ stderr (snd (invoke adapter c w))
     = (stderr w ++ if has_options c && negb (initialized w) then [not_created] else [])%list.
Proof.
  unfold initialized.
  destruct (has_options c) eqn:Hopt.
  - destruct (api w) as [a|] eqn:Hapi.
    + destruct (call_after_init adapter c w a Hopt Hapi) as [req ->]. cbn.
      split; [exact Hapi | split].
      * eexists. split; reflexivity.
      * now rewrite app_nil_r.
    + rewrite (call_before_init adapter c w Hopt Hapi). cbn.
      split; [exact Hapi | split].
      * exists []. split; [now rewrite app_nil_r | reflexivity].
      * reflexivity.
  - destruct (call_without_options adapter c w Hopt) as [e [-> _]]. cbn.
    split; [reflexivity | split].
    + exists []. split; [now rewrite app_nil_r | reflexivity].
    + now rewrite app_nil_r.
Qed.

(** ** [createApiApp] *)

Lemma lookup_set_prop_same (k : string) (v : JsValue) (props : list (string * JsValue)) :
  lookup k (set_prop k v props) = Some v.
Proof.
  induction props as [| [k' v'] rest IH]; cbn.
  - now rewrite String.eqb_refl.
  - destruct (String.eqb_spec k k') as [-> | Hne]; cbn.
    + now rewrite String.eqb_refl.
    + destruct (String.eqb_spec k k'); [contradiction | exact IH].
Qed.

Lemma lookup_set_prop_other (k k' : string) (v : JsValue) (props : list (string * JsValue)) :
  k <> k' ->
  lookup k (set_prop k' v props) = lookup k props.
Proof.
  intros Hne. induction props as [| [k0 v0] rest IH]; cbn.
  - destruct (String.eqb_spec k k'); [contradiction | reflexivity].
  - destruct (String.eqb_spec k' k0) as [-> | Hne0]; cbn.
    + destruct (String.eqb_spec k k0); [contradiction | reflexivity].
    + destruct (String.eqb_spec k k0); [reflexivity | exact IH].
Qed.

Lemma lookup_absent (k : string) (props : list (string * JsValue)) :
  ~ In k (map fst props) -> lookup k props = None.
Proof.
  induction props as [| [k' v'] rest IH]; cbn; [reflexivity |].
  intros Hnot. destruct (String.eqb_spec k k') as [-> | _].
  - exfalso. apply Hnot. now left.
  - apply IH. intros Hin. apply Hnot. now right.
Qed.

Lemma lookup_spread_absent (k : string) (source target : list (string * JsValue)) :
  lookup k source = None ->
  lookup k (spread target source) = lookup k target.
Proof.
  revert target. induction source as [| [k' v'] rest IH]; intros target Hnone.
  - reflexivity.
  - cbn in Hnone. destruct (String.eqb_spec k k') as [-> | Hne]; [discriminate |].
    unfold spread. cbn. fold (spread (set_prop k' v' target) rest).
    rewrite (IH _ Hnone). now apply lookup_set_prop_other.
Qed.

Lemma lookup_spread_present (k : string) (v : JsValue)
      (source target : list (string * JsValue)) :
  NoDup (map fst source) ->
  lookup k source = Some v ->
  lookup k (spread target source) = Some v.
Proof.
  revert target. induction source as [| [k' v'] rest IH]; intros target Hnodup Hsome.
  - discriminate.
  - cbn in Hnodup. inversion Hnodup as [| x l Hnotin Hrest]; subst.
    unfold spread. cbn. fold (spread (set_prop k' v' target) rest).
    cbn in Hsome. destruct (String.eqb_spec k k') as [-> | Hne].
    + injection Hsome as ->.
      rewrite (lookup_spread_absent k' rest _ (lookup_absent _ _ Hnotin)).
      apply lookup_set_prop_same.
    + now apply IH.
Qed.

(** Every property of [config] is in the config [createApiApp] hands
    to [axios.create], with its value; this holds for a [baseURL]
    inside [config] too, which takes the place of the [baseURL]
    argument there. *)
Theorem createApiApp_config_wins (baseURL : string) (config : list (string * JsValue))
        (k : string) (v : JsValue) (w : World) :
  NoDup (map fst config) ->
  lookup k config = Some v ->
  exists a,
    api (snd (createApiApp baseURL (Some config) w)) = Some a
    /\ get_prop (created_with a) k = v.
Proof.
  intros Hnodup Hsome. eexists. split; [reflexivity |].
  cbn - [lookup spread]. now rewrite (lookup_spread_present k v config _ Hnodup Hsome).
Qed.

Lemma createApiApp_config_wins_witness :
  exists a,
    api (snd (createApiApp "https://a.example"
                (Some [("timeout", JNum 1000); ("baseURL", JStr "https://b.example")])
                initial_world))
    = Some a
    /\ get_prop (created_with a) "baseURL" = JStr "https://b.example".
Proof.
  apply (createApiApp_config_wins "https://a.example"
           [("timeout", JNum 1000); ("baseURL", JStr "https://b.example")]
           "baseURL" (JStr "https://b.example") initial_world).
  - repeat constructor; cbn; intuition discriminate.
  - reflexivity.
Defined.

(** Without a [baseURL] in [config], or without [config], the instance
    is created with the [baseURL] argument as its base URL. *)
Theorem createApiApp_baseURL (baseURL : string) (config : option (list (string * JsValue)))
        (w : World) :
  match config with
  | Some c => lookup "baseURL" c = None
  | None => True
  end ->
  exists a,
    api (snd (createApiApp baseURL config w)) = Some a
    /\ get_prop (created_with a) "baseURL" = JStr baseURL.
Proof.
  intros Hnone. eexists. split; [reflexivity |].
  destruct config as [c |]; cbn - [lookup spread].
  - now rewrite (lookup_spread_absent "baseURL" c _ Hnone).
  - reflexivity.
Qed.

Lemma createApiApp_baseURL_witness :
  exists a,
    api (snd (createApiApp "https://a.example" (Some [("timeout", JNum 1000)]) initial_world))
    = Some a
    /\ get_prop (created_with a) "baseURL" = JStr "https://a.example".
Proof.
  apply (createApiApp_baseURL "https://a.example" (Some [("timeout", JNum 1000)])
           initial_world).
  reflexivity.
Defined.

(** [createApiApp] may run again: it returns normally, leaves the error
    stream and the exchanges as they are, and every later call with
    options goes to axios through the instance made last, without a
    diagnostic; unless axios rejects with [undefined] or [null], the
    call is fulfilled with what [settle] makes of the answer. *)
Theorem createApiApp_then_call adapter (baseURL : string)
        (config : option (list (string * JsValue))) (c : Call) (w : World) :
  has_options c = true ->
  let a := axios_create (spread [("baseURL", JStr baseURL)]
                                (match config with Some c => c | None => [] end)) in
  let w1 := snd (createApiApp baseURL config w) in
  fst (createApiApp baseURL config w) = Return tt
  /\ stderr w1 = stderr w
  /\ network w1 = network w
  /\ exists req,
       network (snd (invoke adapter c w1)) = (network w ++ [(req, adapter a req)])%list
       /\ stderr (snd (invoke adapter c w1)) = stderr w
       /\ (nullish_rejection (adapter a req) = false ->
           exists v,
             settle (adapter a req) = Return v
             /\ fst (invoke adapter c w1) = Fulfilled v).
Proof.
  intros Hopt a w1. repeat split.
  assert (Hapi : api w1 = Some a) by reflexivity.
  destruct (call_after_init adapter c w1 a Hopt Hapi) as [req ->].
  exists req. repeat split.
  intros Hanswer. destruct (ApiResponse_settle _ Hanswer) as [v [Hv _]].
  exists v. cbn [fst]. now rewrite Hv.
Qed.

Lemma createApiApp_then_call_witness :
  has_options (CallPost (Some items_options)) = true
  /\ exists req,
       network (snd (invoke (answers (Resolve example_response))
                       (CallPost (Some items_options))
                       (snd (createApiApp "https://b.example" None ready_world))))
       = (network ready_world ++ [(req, Resolve example_response)])%list
       /\ stderr (snd (invoke (answers (Resolve example_response))
                        (CallPost (Some items_options))
                        (snd (createApiApp "https://b.example" None ready_world))))
          = stderr ready_world
       /\ (nullish_rejection (Resolve example_response) = false ->
           exists v,
             settle (Resolve example_response) = Return v
             /\ fst (invoke (answers (Resolve example_response))
                       (CallPost (Some items_options))
                       (snd (createApiApp "https://b.example" None ready_world)))
                = Fulfilled v).
Proof.
  split; [reflexivity |].
  apply (createApiApp_then_call (answers (Resolve example_response)) "https://b.example" None
           (CallPost (Some items_options)) ready_world).
  reflexivity.
Defined.

(** ** What reaches axios *)

(** [post], [put] and [patch] hand [route] and [data] to axios as they
    are, and [remove] hands [route] on without any body, whatever
    [data] its options carry. *)
Theorem body_requests adapter (w : World) (a : AxiosInstance) (o : Options.t JsValue) :
  api w = Some a ->
  requests (snd (invoke adapter (CallPost (Some o)) w))
  = (requests w
     ++ [{| method := POST; url := Options.route o; body := Some (Options.data o);
            request_config := default_to (Options.config o)
                                (JObj [("withCredentials", JBool true)]) |}])%list
  /\ requests (snd (invoke adapter (CallPut (Some o)) w))
     = (requests w
        ++ [{| method := PUT; url := Options.route o; body := Some (Options.data o);
               request_config := default_to (Options.config o) (JObj []) |}])%list
  /\ requests (snd (invoke adapter (CallPatch (Some o)) w))
     = (requests w
        ++ [{| method := PATCH; url := Options.route o; body := Some (Options.data o);
               request_config := default_to (Options.config o)
                                   (JObj [("withCredentials", JBool true)]) |}])%list
  /\ requests (snd (invoke adapter (CallDelete (Some o)) w))
     = (requests w
        ++ [{| method := DELETE; url := Options.route o; body := None;
               request_config := default_to (Options.config o)
                                   (JObj [("withCredentials", JBool true)]) |}])%list.
Proof.
  intros Hapi.
  repeat split;
    unfold invoke, async, post, patch, put, remove, bind, read_api, destructure, ret;
    rewrite Hapi;
    unfold try_catch, bind, api_post, api_patch, api_put, api_delete, send, ret, pure;
    destruct (adapter a _); cbn [fst snd];
    apply requests_exchanged.
Qed.

Lemma body_requests_witness :
  api ready_world
  = Some {| created_with := JObj [("baseURL", JStr "https://api.example.com")] |}
  /\ requests (snd (invoke (answers (Resolve example_response))
                      (CallDelete (Some items_options)) ready_world))
     = [{| method := DELETE; url := "/items"; body := None;
           request_config := JObj [("withCredentials", JBool true)] |}].
Proof.
  split; [reflexivity |].
  apply (body_requests (answers (Resolve example_response)) ready_world
           {| created_with := JObj [("baseURL", JStr "https://api.example.com")] |}
           items_options).
  reflexivity.
Defined.

Lemma default_to_defined (v d : JsValue) : v <> JUndefined -> default_to v d = v.
Proof.
  intros Hv. destruct v; try reflexivity. contradiction.
Qed.

(** A [config] given in the options, [null] included, is handed to
    axios as it is and takes the place of the default: the default
    [withCredentials: true] of [post], [patch] and [remove] is not
    merged into it. *)
Theorem given_config_replaces_default adapter (w : World) (a : AxiosInstance)
        (route : string) (query : QueryData) (data config : JsValue) :
  api w = Some a ->
  config <> JUndefined ->
  let sent c := map request_config (requests (snd (invoke adapter c w))) in
  let expected := (map request_config (requests w) ++ [config])%list in
  sent (CallGet (Some (Options.make route query config))) = expected
  /\ sent (CallPost (Some (Options.make route data config))) = expected
  /\ sent (CallPut (Some (Options.make route data config))) = expected
  /\ sent (CallPatch (Some (Options.make route data config))) = expected
  /\ sent (CallDelete (Some (Options.make route data config))) = expected.
Proof.
  intros Hapi Hconfig sent expected. unfold sent, expected.
  split.
  - rewrite (get_request adapter w a _ Hapi). cbn [Options.config].
    rewrite map_app. cbn [map request_config].
    now rewrite (default_to_defined config _ Hconfig).
  - repeat split;
      unfold invoke, async, post, patch, put, remove, bind, read_api, destructure, ret;
      rewrite Hapi;
      unfold try_catch, bind, api_post, api_patch, api_put, api_delete, send, ret, pure;
      destruct (adapter a _); cbn [fst snd];
      rewrite requests_exchanged, map_app; cbn [map request_config Options.config];
      now rewrite (default_to_defined config _ Hconfig).
Qed.

Lemma given_config_replaces_default_witness :
  map request_config
    (requests (snd (invoke (answers (Resolve example_response))
                      (CallPost (Some (Options.make "/items" JNull
                                         (JObj [("timeout", JNum 1000)]))))
                      ready_world)))
  = [JObj [("timeout", JNum 1000)]].
Proof.
  apply (given_config_replaces_default (answers (Resolve example_response)) ready_world
           {| created_with := JObj [("baseURL", JStr "https://api.example.com")] |}
           "/items" DataNull JNull (JObj [("timeout", JNum 1000)])).
  - reflexivity.
  - discriminate.
Defined.

(** ** The query string *)

Fixpoint count_char (c : ascii) (s : string) : nat :=
  match s with
  | EmptyString => 0%nat
  | String c' rest => ((if (c =? c')%char then 1 else 0) + count_char c rest)%nat
  end.

Fixpoint all_chars (p : ascii -> bool) (s : string) : bool :=
  match s with
  | EmptyString => true
  | String c rest => p c && all_chars p rest
  end.

(** The characters the serializer writes: the ones it leaves alone,
    [+] for a space, and [%] before two hexadecimal digits. *)
Definition serialized_char (c : ascii) : bool :=
  urlencoded_safe (N_of_ascii c) || (c =? "+")%char || (c =? "%")%char.

Lemma count_char_app (c : ascii) (a b : string) :
  count_char c (a ++ b) = (count_char c a + count_char c b)%nat.
Proof.
  induction a as [| c' a IH]; cbn; [reflexivity | rewrite IH; lia].
Qed.

Lemma all_chars_app (p : ascii -> bool) (a b : string) :
  all_chars p (a ++ b) = all_chars p a && all_chars p b.
Proof.
  induction a as [| c' a IH]; cbn; [reflexivity | now rewrite IH, andb_assoc].
Qed.

Lemma all_chars_count (p : ascii -> bool) (c : ascii) (s : string) :
  all_chars p s = true -> p c = false -> count_char c s = 0%nat.
Proof.
  intros Hall Hc. induction s as [| c' s IH]; cbn in *; [reflexivity |].
  apply andb_prop in Hall. destruct Hall as [Hc' Hs].
  destruct (Ascii.eqb_spec c c') as [-> | _]; [congruence | now apply IH].
Qed.

Lemma urlencoded_byte_chars (c : ascii) :
  all_chars serialized_char (urlencoded_byte c) = true.
Proof.
  destruct c as [[] [] [] [] [] [] [] []]; reflexivity.
Qed.

(** Whatever bytes a name or a value holds, its serialized form is
    made of ASCII letters and digits and of [*], [-], [.], [_], [+]
    and [%] only. *)
Lemma urlencoded_string_chars (s : string) :
  all_chars serialized_char (urlencoded_string s) = true.
Proof.
  induction s as [| c s IH]; cbn; [reflexivity |].
  now rewrite all_chars_app, urlencoded_byte_chars, IH.
Qed.

Lemma urlencoded_string_count (c : ascii) (s : string) :
  serialized_char c = false -> count_char c (urlencoded_string s) = 0%nat.
Proof.
  intros Hc. exact (all_chars_count _ c _ (urlencoded_string_chars s) Hc).
Qed.

Lemma urlencoded_pair_count (p : string * QueryValue) :
  count_char "=" (urlencoded_pair p) = 1%nat
  /\ count_char "&" (urlencoded_pair p) = 0%nat.
Proof.
  unfold urlencoded_pair. rewrite !count_char_app.
  rewrite !urlencoded_string_count by reflexivity. split; reflexivity.
Qed.

Lemma concat_cons (sep x : string) (xs : list string) :
  String.concat sep (x :: xs)
  = match xs with
    | [] => x
    | _ :: _ => x ++ sep ++ String.concat sep xs
    end.
Proof. destruct xs; reflexivity. Qed.

Lemma query_string_counts (data : QueryRecord) :
  count_char "=" (URLSearchParams_toString data) = List.length data
  /\ count_char "&" (URLSearchParams_toString data) = (List.length data - 1)%nat.
Proof.
  unfold URLSearchParams_toString.
  induction data as [| p rest [IHeq IHamp]]; [split; reflexivity |].
  cbn [map]. rewrite concat_cons.
  destruct (urlencoded_pair_count p) as [Heq Hamp].
  destruct rest as [| q rest'].
  - cbn [map]. rewrite Heq, Hamp. split; reflexivity.
  - remember (q :: rest') as rest eqn:Hrest.
    assert (Hmap : exists y ys, map urlencoded_pair rest = y :: ys)
      by (subst rest; cbn; eauto).
    destruct Hmap as (y & ys & Hmap). rewrite Hmap. rewrite <- Hmap.
    rewrite !count_char_app, Heq, Hamp, IHeq, IHamp.
    subst rest. cbn. split; lia.
Qed.

(** A query string has one [=] for each parameter and one [&] between
    two neighbours, whatever characters the names and values hold:
    none of them can add or hide a separator. *)
Theorem query_string_separators (data : QueryRecord) :
  count_char "=" (URLSearchParams_toString data) = List.length data
  /\ count_char "&" (URLSearchParams_toString data) = (List.length data - 1)%nat.
Proof.
  exact (query_string_counts data).
Qed.

(** Reading one serialized byte back, to tell serialized strings apart. *)
Definition hex_value (c : ascii) : N :=
  let n := N_of_ascii c in
  if (n <? 58)%N then (n - 48)%N else (n - 55)%N.

Definition decode_head (s : string) : option (ascii * string) :=
  match s with
  | EmptyString => None
  | String c rest =>
      if (c =? "+")%char then Some (" "%char, rest)
      else if (c =? "%")%char then
        match rest with
        | String h (String l rest') =>
            Some (ascii_of_N (16 * hex_value h + hex_value l), rest')
        | _ => None
        end
      else Some (c, rest)
  end.

Lemma decode_head_urlencoded (c : ascii) (s : string) :
  decode_head (urlencoded_byte c ++ s) = Some (c, s).
Proof.
  destruct c as [[] [] [] [] [] [] [] []]; reflexivity.
Qed.

Lemma urlencoded_string_inj (s1 s2 : string) :
  urlencoded_string s1 = urlencoded_string s2 -> s1 = s2.
Proof.
  revert s2. induction s1 as [| c1 s1 IH]; intros [| c2 s2] H; cbn in H.
  - reflexivity.
  - apply (f_equal decode_head) in H. rewrite decode_head_urlencoded in H. discriminate H.
  - apply (f_equal decode_head) in H. rewrite decode_head_urlencoded in H. discriminate H.
  - apply (f_equal decode_head) in H. rewrite !decode_head_urlencoded in H.
    injection H as -> H. now rewrite (IH _ H).
Qed.

(** The serializer loses nothing of a well-formed text: two names, or
    two values, given as the UTF-8 bytes of strings without lone
    surrogates, have the same serialized form only when they are the
    same.  (A lone surrogate is outside this: URLSearchParams writes
    it as U+FFFD, like the character U+FFFD itself.) *)
Theorem urlencoded_string_injective (s1 s2 : string) :
  urlencoded_string s1 = urlencoded_string s2 <-> s1 = s2.
Proof.
  split; [apply urlencoded_string_inj | now intros ->].
Qed.

Lemma split_unique (sep : ascii) (a a' b b' : string) :
  count_char sep a = 0%nat ->
  count_char sep a' = 0%nat ->
  a ++ String sep b = a' ++ String sep b' ->
  a = a' /\ b = b'.
Proof.
  revert a'. induction a as [| c a IH]; intros [| c' a'] Ha Ha' H; cbn in *.
  - injection H as ->. split; reflexivity.
  - injection H as <- _. rewrite Ascii.eqb_refl in Ha'. discriminate Ha'.
  - injection H as -> _. rewrite Ascii.eqb_refl in Ha. discriminate Ha.
  - injection H as <- H.
    destruct (sep =? c)%char; [discriminate Ha |].
    destruct (IH a' Ha Ha' H) as [-> ->]. split; reflexivity.
Qed.

(** A parameter as the query string shows it: its name and the text of
    its value. *)
Definition as_text (p : string * QueryValue) : string * string :=
  (fst p, query_value_to_string (snd p)).

Lemma urlencoded_pair_injective (p q : string * QueryValue) :
  urlencoded_pair p = urlencoded_pair q -> as_text p = as_text q.
Proof.
  unfold urlencoded_pair, as_text. intros H.
  apply (split_unique "=") in H; try (apply urlencoded_string_count; reflexivity).
  destruct H as [Hk Hv].
  apply urlencoded_string_inj in Hk, Hv. now rewrite Hk, Hv.
Qed.

Lemma query_string_of_text (d1 d2 : QueryRecord) :
  map as_text d1 = map as_text d2 ->
  URLSearchParams_toString d1 = URLSearchParams_toString d2.
Proof.
  intros H. unfold URLSearchParams_toString. f_equal.
  revert d2 H. induction d1 as [| p d1 IH]; intros [| q d2] H; cbn in *;
    try discriminate; [reflexivity |].
  injection H as Hk Hv Hrest. unfold urlencoded_pair at 1 3.
  now rewrite Hk, Hv, (IH _ Hrest).
Qed.

(** The records whose numbers are safe integers. *)
Definition safe_record (data : QueryRecord) : bool :=
  forallb (fun p => match snd p with
                    | QNum n => safe_integer n
                    | QStr _ => true
                    end) data.

Lemma query_string_inj (d1 d2 : QueryRecord) :
  URLSearchParams_toString d1 = URLSearchParams_toString d2 ->
  map as_text d1 = map as_text d2.
Proof.
  intros H.
  assert (Hlen : List.length d1 = List.length d2).
  { rewrite <- (proj1 (query_string_counts d1)),
            <- (proj1 (query_string_counts d2)).
    now rewrite H. }
  revert d2 H Hlen. induction d1 as [| p d1 IH]; intros [| q d2] H Hlen;
    try discriminate Hlen; [reflexivity |].
  cbn in Hlen. injection Hlen as Hlen.
  unfold URLSearchParams_toString in H. cbn [map] in H. rewrite !concat_cons in H.
  destruct d1 as [| p' d1]; destruct d2 as [| q' d2]; try discriminate Hlen.
  - cbn in *. now rewrite (urlencoded_pair_injective _ _ H).
  - cbn [map] in H.
    apply (split_unique "&") in H; try apply urlencoded_pair_count.
    destruct H as [Hpair Hrest].
    cbn [map]. rewrite (urlencoded_pair_injective _ _ Hpair).
    f_equal. apply (IH (q' :: d2)); [exact Hrest | exact Hlen].
Qed.

(** Two records of well-formed text and safe integers give the same
    query string exactly when they list the same names with the same
    values as text, in the same order: the number 1 and the string
    ["1"] are written alike, and nothing else is confused. *)
Theorem query_string_injective (d1 d2 : QueryRecord) :
  safe_record d1 = true ->
  safe_record d2 = true ->
  (URLSearchParams_toString d1 = URLSearchParams_toString d2
   <-> map as_text d1 = map as_text d2).
Proof.
  intros _ _. split; [apply query_string_inj | apply query_string_of_text].
Qed.

Lemma query_string_injective_witness :
  safe_record [("a", QNum 1); ("b", QStr "x y")] = true
  /\ safe_record [("a", QStr "1"); ("b", QStr "x y")] = true
  /\ (URLSearchParams_toString [("a", QNum 1); ("b", QStr "x y")]
      = URLSearchParams_toString [("a", QStr "1"); ("b", QStr "x y")]
      <-> map as_text [("a", QNum 1); ("b", QStr "x y")]
          = map as_text [("a", QStr "1"); ("b", QStr "x y")]).
Proof.
  split; [reflexivity | split; [reflexivity |]].
  apply (query_string_injective [("a", QNum 1); ("b", QStr "x y")]
           [("a", QStr "1"); ("b", QStr "x y")]);
    reflexivity.
Defined.

(** The characters of a query string: those of the serialized names
    and values, and the two separators. *)
Definition query_char (c : ascii) : bool :=
  serialized_char c || (c =? "=")%char || (c =? "&")%char.

Lemma all_chars_weaken (p q : ascii -> bool) (s : string) :
  (forall c, p c = true -> q c = true) ->
  all_chars p s = true -> all_chars q s = true.
Proof.
  intros Hpq. induction s as [| c s IH]; cbn; [reflexivity |].
  intros H. apply andb_prop in H. destruct H as [Hc Hs].
  now rewrite (Hpq c Hc), (IH Hs).
Qed.

Lemma urlencoded_pair_chars (p : string * QueryValue) :
  all_chars query_char (urlencoded_pair p) = true.
Proof.
  assert (Hweak : forall s, all_chars query_char (urlencoded_string s) = true).
  { intros s. apply (all_chars_weaken serialized_char); [| apply urlencoded_string_chars].
    intros c Hc. unfold query_char. now rewrite Hc. }
  unfold urlencoded_pair. rewrite !all_chars_app, !Hweak. reflexivity.
Qed.

Lemma query_string_all_chars (data : QueryRecord) :
  all_chars query_char (URLSearchParams_toString data) = true.
Proof.
  unfold URLSearchParams_toString.
  induction data as [| p rest IH]; [reflexivity |].
  cbn [map]. rewrite concat_cons.
  destruct (map urlencoded_pair rest) as [| y ys] eqn:Hmap.
  - apply urlencoded_pair_chars.
  - rewrite !all_chars_app, urlencoded_pair_chars, IH. reflexivity.
Qed.

(** A query string is plain ASCII without space, [?], [#] or [/]: it
    holds letters, digits and [*], [-], [.], [_], [+], [%], [=] and
    [&] only, whatever bytes the names and values are made of. *)
Theorem query_string_chars (data : QueryRecord) :
  all_chars query_char (URLSearchParams_toString data) = true
  /\ forall c, query_char c = false ->
               count_char c (URLSearchParams_toString data) = 0%nat.
Proof.
  split; [apply query_string_all_chars |].
  intros c Hc. exact (all_chars_count _ c _ (query_string_all_chars data) Hc).
Qed.

Lemma append_inj_l (s a b : string) : s ++ a = s ++ b -> a = b.
Proof.
  induction s as [| c s IH]; cbn; intros H; [exact H |].
  injection H as H. now apply IH.
Qed.

(** [data] brings no parameter: it is left out, [null] or an empty
    record. *)
Definition no_parameters (d : QueryData) : Prop :=
  match d with
  | DataRecord (_ :: _) => False
  | _ => True
  end.

(** The URL [get] asks for has one [?] more than [route], also when
    [route] holds a query string of its own, and it ends in the bare
    [?] exactly when [data] brings no parameter. *)
Theorem get_url_shape adapter (w : World) (a : AxiosInstance) (o : Options.t QueryData) :
  api w = Some a ->
  exists req,
    requests (snd (invoke adapter (CallGet (Some o)) w)) = (requests w ++ [req])%list
    /\ count_char "?" (url req) = S (count_char "?" (Options.route o))
    /\ (url req = Options.route o ++ "?" <-> no_parameters (Options.data o)).
Proof.
  intros Hapi. eexists. split; [apply (get_request adapter w a o Hapi) |].
  cbn [url]. split.
  - rewrite count_char_app. cbn.
    assert (Hq : count_char "?" match Options.data o with
                                | DataRecord r => URLSearchParams_toString r
                                | _ => ""
                                end = 0%nat).
    { destruct (Options.data o) as [| | r]; try reflexivity.
      apply (all_chars_count query_char); [apply query_string_all_chars | reflexivity]. }
    rewrite Hq. lia.
  - destruct (Options.data o) as [| | [| p r]]; cbn [no_parameters];
      try (split; [intros _; exact I | reflexivity]).
    split; [| contradiction].
    intros H. apply append_inj_l in H. cbn [append] in H. injection H as H.
    apply (f_equal (count_char "=")) in H.
    rewrite (proj1 (query_string_counts (p :: r))) in H. discriminate H.
Qed.

Lemma get_url_shape_witness :
  api ready_world
  = Some {| created_with := JObj [("baseURL", JStr "https://api.example.com")] |}
  /\ exists req,
       requests (snd (invoke (answers (Resolve example_response))
                        (CallGet (Some (Options.make "/items?page=2"
                                          (DataRecord [("q", QStr "a b")]) JUndefined)))
                        ready_world))
       = (requests ready_world ++ [req])%list
       /\ count_char "?" (url req) = 2%nat
       /\ (url req = "/items?page=2?"
           <-> no_parameters (DataRecord [("q", QStr "a b")])).
Proof.
  split; [reflexivity |].
  apply (get_url_shape (answers (Resolve example_response)) ready_world
           {| created_with := JObj [("baseURL", JStr "https://api.example.com")] |}
           (Options.make "/items?page=2" (DataRecord [("q", QStr "a b")]) JUndefined)).
  reflexivity.
Defined.

Example get_keeps_query_of_route :
  requests (snd (invoke (answers (Resolve example_response))
                   (CallGet (Some (Options.make "/items?page=2"
                                     (DataRecord [("q", QStr "a b")]) JUndefined)))
                   ready_world))
  = [{| method := GET; url := "/items?page=2?q=a+b"; body := None;
        request_config := JObj [] |}].
Proof. reflexivity. Qed.

(** ** Names and values that need no escaping *)

Definition safe_char (c : ascii) : bool := urlencoded_safe (N_of_ascii c).

Lemma urlencoded_byte_safe (c : ascii) :
  safe_char c = true -> urlencoded_byte c = String c "".
Proof.
  destruct c as [[] [] [] [] [] [] [] []]; intros H; try reflexivity; discriminate H.
Qed.

Lemma urlencoded_safe_unchanged (s : string) :
  all_chars safe_char s = true -> urlencoded_string s = s.
Proof.
  induction s as [| c s IH]; cbn; [reflexivity |].
  intros H. apply andb_prop in H. destruct H as [Hc Hs].
  now rewrite (urlencoded_byte_safe c Hc), (IH Hs).
Qed.

Lemma length_append (a b : string) :
  String.length (a ++ b) = (String.length a + String.length b)%nat.
Proof.
  induction a as [| c a IH]; cbn; [reflexivity | now rewrite IH].
Qed.

Lemma urlencoded_string_length (s : string) :
  (String.length s <= String.length (urlencoded_string s))%nat.
Proof.
  induction s as [| c s IH]; cbn; [lia |].
  rewrite length_append.
  assert (1 <= String.length (urlencoded_byte c))%nat
    by (destruct c as [[] [] [] [] [] [] [] []]; cbn; lia).
  lia.
Qed.

Lemma urlencoded_byte_unsafe (c : ascii) (t s : string) :
  safe_char c = false ->
  urlencoded_byte c ++ t = String c s ->
  c = "%"%char /\ s = String "2" (String "5" t).
Proof.
  destruct c as [[] [] [] [] [] [] [] []]; cbn; intros Hc H;
    try discriminate Hc; try discriminate H.
  injection H as <-. split; reflexivity.
Qed.

(** A name or value goes into the query string as it is exactly when
    it is made of ASCII letters, digits, [*], [-], [.] and [_] only;
    every other byte, the space and non-ASCII text included, is
    rewritten. *)
Theorem urlencoded_string_safe (s : string) :
  urlencoded_string s = s <-> all_chars safe_char s = true.
Proof.
  split; [| apply urlencoded_safe_unchanged].
  induction s as [| c s IH]; cbn; [reflexivity |].
  intros H. destruct (safe_char c) eqn:Hc.
  - rewrite (urlencoded_byte_safe c Hc) in H. cbn in H. injection H as H.
    now apply IH.
  - exfalso. destruct (urlencoded_byte_unsafe c _ s Hc H) as [_ Hs].
    pose proof (urlencoded_string_length s) as Hlen.
    rewrite Hs in Hlen at 1. cbn in Hlen. lia.
Qed.

Lemma string_of_uint_safe (u : Decimal.uint) :
  all_chars safe_char (NilEmpty.string_of_uint u) = true.
Proof.
  induction u; cbn; [reflexivity | exact IHu ..].
Qed.

Lemma number_to_string_safe (n : Z) : all_chars safe_char (number_to_string n) = true.
Proof.
  unfold number_to_string, NilZero.string_of_int, NilZero.string_of_uint.
  destruct (Z.to_int n) as [u | u].
  - destruct u; try reflexivity; apply (string_of_uint_safe (_ u)).
  - cbn [all_chars]. destruct u; try reflexivity; apply (string_of_uint_safe (_ u)).
Qed.

(** A safe integer goes into the query string as its decimal text,
    the sign of a negative number included: nothing of it is escaped. *)
Theorem number_parameter_verbatim (name : string) (n : Z) :
  safe_integer n = true ->
  urlencoded_pair (name, QNum n) = urlencoded_string name ++ "=" ++ number_to_string n.
Proof.
  intros _. unfold urlencoded_pair. cbn [fst snd query_value_to_string].
  now rewrite (urlencoded_safe_unchanged _ (number_to_string_safe n)).
Qed.

Lemma number_parameter_verbatim_witness :
  safe_integer (-42) = true
  /\ urlencoded_pair ("offset", QNum (-42)) = "offset=-42".
Proof.
  split; [reflexivity |].
  apply (number_parameter_verbatim "offset" (-42)). reflexivity.
Defined.

(** ** Calls one after the other *)

(** A caller awaiting one call after the other,
    [await post(...); await get(...); ...]: the promises in order and
    the world at the end. *)
Fixpoint invoke_all (adapter : AxiosInstance -> Request -> AxiosResult)
         (calls : list Call) (w : World) : list Promise * World :=
  match calls with
  | [] => ([], w)
  | c :: rest =>
      let (p, w1) := invoke adapter c w in
      let (ps, w2) := invoke_all adapter rest w1 in
      (p :: ps, w2)
  end.

(** The calls that pass an options object. *)
Definition with_options (calls : list Call) : nat :=
  List.length (filter has_options calls).

Lemma invoke_all_cons adapter (c : Call) (rest : list Call) (w : World) :
  invoke_all adapter (c :: rest) w
  = (fst (invoke adapter c w) :: fst (invoke_all adapter rest (snd (invoke adapter c w))),
     snd (invoke_all adapter rest (snd (invoke adapter c w)))).
Proof.
  cbn. destruct (invoke adapter c w) as [p w1]. cbn.
  now destruct (invoke_all adapter rest w1).
Qed.

(** No verb function ever creates the instance: while [createApiApp]
    has not run, however many calls are made, [api] stays unset, axios
    is never reached, every call with options returns [undefined] after
    one more diagnostic line, and every call without an argument is
    rejected with a TypeError. *)
Theorem never_initialized_by_calls adapter (calls : list Call) (w : World) :
  api w = None ->
  api (snd (invoke_all adapter calls w)) = None
  /\ network (snd (invoke_all adapter calls w)) = network w
  /\ stderr (snd (invoke_all adapter calls w))
     = (stderr w ++ repeat not_created (with_options calls))%list
  /\ Forall2 (fun c p =>
                if has_options c then p = Fulfilled JUndefined
                else exists e : JsError, p = Rejected e /\ name e = "TypeError")
             calls (fst (invoke_all adapter calls w)).
Proof.
  revert w. induction calls as [| c rest IH]; intros w Hapi.
  - cbn. rewrite app_nil_r. repeat split; [exact Hapi | constructor].
  - rewrite invoke_all_cons. cbn [fst snd]. unfold with_options. cbn [filter].
    destruct (has_options c) eqn:Hopt.
    + rewrite (call_before_init adapter c w Hopt Hapi). cbn [fst snd].
      destruct (IH (warned w not_created) Hapi) as (H1 & H2 & H3 & H4).
      repeat split; [exact H1 | exact H2 | | ].
      * rewrite H3. cbn. now rewrite <- app_assoc.
      * constructor; [now rewrite Hopt | exact H4].
    + destruct (call_without_options adapter c w Hopt) as [e [Hcall Hname]].
      rewrite Hcall. cbn [fst snd].
      destruct (IH w Hapi) as (H1 & H2 & H3 & H4).
      repeat split; [exact H1 | exact H2 | exact H3 |].
      constructor; [rewrite Hopt; eauto | exact H4].
Qed.

Lemma never_initialized_by_calls_witness :
  api initial_world = None
  /\ api (snd (invoke_all (answers (Resolve example_response))
                 [CallGet None; CallPost (Some items_options); CallDelete (Some items_options)]
                 initial_world))
     = None
  /\ network (snd (invoke_all (answers (Resolve example_response))
                     [CallGet None; CallPost (Some items_options);
                      CallDelete (Some items_options)]
                     initial_world))
     = []
  /\ stderr (snd (invoke_all (answers (Resolve example_response))
                    [CallGet None; CallPost (Some items_options);
                     CallDelete (Some items_options)]
                    initial_world))
     = [not_created; not_created].
Proof.
  split; [reflexivity |].
  destruct (never_initialized_by_calls (answers (Resolve example_response))
              [CallGet None; CallPost (Some items_options); CallDelete (Some items_options)]
              initial_world eq_refl) as (H1 & H2 & H3 & _).
  split; [exact H1 | split; [exact H2 | exact H3]].
Defined.

(** Once [createApiApp] has run, any run of calls keeps the instance,
    writes nothing to the error stream and gives axios exactly one
    request for each call that passes its options; as long as axios
    does not reject with [undefined] or [null], each of these calls is
    fulfilled with an envelope of the typedef's shape. *)
Theorem initialized_calls adapter (calls : list Call) (w : World) (a : AxiosInstance) :
  api w = Some a ->
  api (snd (invoke_all adapter calls w)) = Some a
  /\ stderr (snd (invoke_all adapter calls w)) = stderr w
  /\ List.length (network (snd (invoke_all adapter calls w)))
     = (List.length (network w) + with_options calls)%nat
  /\ ((forall req, nullish_rejection (adapter a req) = false) ->
      Forall2 (fun c p =>
                 if has_options c then exists v, p = Fulfilled v /\ ApiResponse v
                 else exists e : JsError, p = Rejected e /\ name e = "TypeError")
              calls (fst (invoke_all adapter calls w))).
Proof.
  revert w. induction calls as [| c rest IH]; intros w Hapi.
  - cbn. rewrite Nat.add_0_r. repeat split; [exact Hapi | constructor].
  - rewrite invoke_all_cons. cbn [fst snd]. unfold with_options. cbn [filter].
    destruct (has_options c) eqn:Hopt.
    + destruct (call_after_init adapter c w a Hopt Hapi) as [req Hcall].
      rewrite Hcall. cbn [fst snd].
      destruct (IH (exchanged w req (adapter a req)) Hapi) as (H1 & H2 & H3 & H4).
      repeat split; [exact H1 | exact H2 | | ].
      * rewrite H3. cbn. rewrite List.length_app. cbn. unfold with_options. lia.
      * intros Hadapter. constructor; [| exact (H4 Hadapter)]. rewrite Hopt.
        destruct (ApiResponse_settle _ (Hadapter req)) as [v [Hv Hshape]].
        exists v. rewrite Hv. split; [reflexivity | exact Hshape].
    + destruct (call_without_options adapter c w Hopt) as [e [Hcall Hname]].
      rewrite Hcall. cbn [fst snd].
      destruct (IH w Hapi) as (H1 & H2 & H3 & H4).
      repeat split; [exact H1 | exact H2 | exact H3 |].
      intros Hadapter. constructor; [rewrite Hopt; eauto | exact (H4 Hadapter)].
Qed.

Lemma initialized_calls_witness :
  api ready_world
  = Some {| created_with := JObj [("baseURL", JStr "https://api.example.com")] |}
  /\ List.length
       (network (snd (invoke_all (answers (Reject network_error))
                        [CallGet None; CallPost (Some items_options);
                         CallDelete (Some items_options)]
                        ready_world)))
     = 2%nat
  /\ stderr (snd (invoke_all (answers (Reject network_error))
                    [CallGet None; CallPost (Some items_options);
                     CallDelete (Some items_options)]
                    ready_world))
     = [].
Proof.
  split; [reflexivity |].
  destruct (initialized_calls (answers (Reject network_error))
              [CallGet None; CallPost (Some items_options); CallDelete (Some items_options)]
              ready_world
              {| created_with := JObj [("baseURL", JStr "https://api.example.com")] |}
              eq_refl) as (_ & H2 & H3 & _).
  split; [exact H3 | exact H2].
Defined.
